(** * go-geo: coordinate conversions and great-circle distance

    A shallow embedding of package [geo] (types.go, wgs84.go, haversine.go).

    Go's [float64] is modelled by the real numbers of the Standard Library:
    every arithmetic operation is exact, there is no rounding, no NaN and no
    infinity.  The named types [Meters], [Degrees] and [Radians] are all
    [float64] underneath; a Go conversion such as [Degrees(x)] or [x.F64()]
    changes the static type and never the value, and is written here as an
    identity function so that it stays visible.

    The two unit conversions use nothing but one multiplication by a
    constant, so they are also given over IEEE-754 binary64 (module
    [Float64]), where they can be evaluated. *)

From Stdlib Require Import Reals Lra Lia ZArith Bool String RNsatz.
From Stdlib Require Floats.

Local Open Scope R_scope.

(** ** The part of Go's [math] package that the code calls *)

Definition float64 : Type := R.

(** Go's [x != y] on [float64]. *)
Definition float64_neq (x y : float64) : bool :=
  if Req_dec_T x y then false else true.

Module math.

Definition Pi : float64 := PI.
Definition Sin (x : float64) : float64 := sin x.
Definition Cos (x : float64) : float64 := cos x.
Definition Sqrt (x : float64) : float64 := sqrt x.

(** [math.Atan2(y, x)]: "the arc tangent of y/x, using the signs of the two
    to determine the quadrant of the return value"; the result lies in
    (-Pi, Pi], and [Atan2(0, 0) = 0]. *)
Definition Atan2 (y x : float64) : float64 :=
  if Rlt_dec 0 x then atan (y / x)
  else if Rlt_dec x 0 then
    if Rle_dec 0 y then atan (y / x) + PI else atan (y / x) - PI
  else
    if Rlt_dec 0 y then PI / 2
    else if Rlt_dec y 0 then - (PI / 2)
    else 0.

(** [math.Pow(x, y)]; the code only ever passes the literal exponent 2. *)
Definition Pow (x : float64) (y : nat) : float64 := x ^ y.

End math.

(** ** types.go: unit types *)

Definition Meters : Type := float64.
Definition Degrees : Type := float64.
Definition Radians : Type := float64.

(** The conversions [Meters(x)], [Degrees(x)], [Radians(x)] of a [float64]. *)
Definition to_Meters (x : float64) : Meters := x.
Definition to_Degrees (x : float64) : Degrees := x.
Definition to_Radians (x : float64) : Radians := x.

Definition Meters_F64 (m : Meters) : float64 := m.
Definition Degrees_F64 (d : Degrees) : float64 := d.
Definition Radians_F64 (r : Radians) : float64 := r.

(** [func (d Degrees) Radians() Radians { return Radians(math.Pi / 180 * d) }] *)
Definition Degrees_Radians (d : Degrees) : Radians :=
  to_Radians (math.Pi / 180 * d).

(** [func (r Radians) Degrees() Degrees { return Degrees(180 / math.Pi * r) }] *)
Definition Radians_Degrees (r : Radians) : Degrees :=
  to_Degrees (180 / math.Pi * r).

(** ** types.go: coordinate structs *)

Record AER : Type := mkAER
  { Azimuth : Degrees; Elevation : Degrees; Range : Meters }.

Record LLA : Type := mkLLA
  { Latitude : Degrees; Longitude : Degrees; Altitude : Meters }.

Record XYZ : Type := mkXYZ { X : Meters; Y : Meters; Z : Meters }.

Record ENU : Type := mkENU { East : Meters; North : Meters; Up : Meters }.

(** The [CoordinateSystem] interface. *)
Record CoordinateSystem : Type := mkCoordinateSystem
  { LLAToXYZ : LLA -> XYZ;
    XYZToLLA : XYZ -> LLA;
    XYZToENU : LLA -> XYZ -> ENU;
    ENUToXYZ : LLA -> ENU -> XYZ;
    LLAToENU : LLA -> LLA -> ENU }.

(** ** types.go: AER <-> ENU *)

(** [func (aed AER) ENU() ENU] *)
Definition AER_ENU (aed : AER) : ENU :=
  let sinTheta := math.Sin (Radians_F64 (Degrees_Radians (Elevation aed))) in
  let cosTheta := math.Cos (Radians_F64 (Degrees_Radians (Elevation aed))) in
  let sinPhi := math.Sin (Radians_F64 (Degrees_Radians (Azimuth aed))) in
  let cosPhi := math.Cos (Radians_F64 (Degrees_Radians (Azimuth aed))) in
  {| East := Range aed * to_Meters (sinPhi * cosTheta);
     North := Range aed * to_Meters (cosPhi * sinTheta);
     Up := Range aed * to_Meters sinTheta |}.

(** [func (enu ENU) AER() AER] *)
Definition ENU_AER (enu : ENU) : AER :=
  let r :=
    to_Meters (math.Sqrt (Meters_F64 (East enu * East enu + North enu * North enu))) in
  {| Azimuth := to_Degrees (math.Atan2 (Meters_F64 (East enu)) (Meters_F64 (North enu)));
     Elevation := to_Degrees (math.Atan2 (Meters_F64 (Up enu)) (Meters_F64 r));
     Range := to_Meters (math.Sqrt (Meters_F64 (r * r + Up enu * Up enu))) |}.

(** ** wgs84.go *)

Definition wgs84A : float64 := 6378137.0.
Definition wgs84B : float64 := 6356752.314245.
Definition wgs84F : float64 := (wgs84A - wgs84B) / wgs84A.
Definition wgs84FInv : float64 := 1.0 / wgs84F.
Definition wgs84ASq : float64 := wgs84A * wgs84A.
Definition wgs84BSq : float64 := wgs84B * wgs84B.
Definition wgs84ESq : float64 := wgs84F * (2 - wgs84F).

Definition wgs84_XYZToLLA (x : XYZ) : LLA :=
  let eps := wgs84ESq / (1 - wgs84ESq) in
  let p := math.Sqrt (Meters_F64 (X x * X x + Y x * Y x)) in
  let q := math.Atan2 (Meters_F64 (Z x) * wgs84A) (p * wgs84B) in
  let sinQ := math.Sin q in
  let cosQ := math.Cos q in
  let sinQ3 := sinQ * sinQ * sinQ in
  let cosQ3 := cosQ * cosQ * cosQ in
  let phi :=
    math.Atan2 (Meters_F64 (Z x) + eps * wgs84B * sinQ3)
               (p - wgs84ESq * wgs84A * cosQ3) in
  let lambda := math.Atan2 (Meters_F64 (Y x)) (Meters_F64 (X x)) in
  let v := wgs84A / math.Sqrt (1.0 - wgs84ESq * math.Sin phi * math.Sin phi) in
  let h := to_Meters (p / math.Cos phi - v) in
  {| Latitude := Radians_Degrees (to_Radians phi);
     Longitude := Radians_Degrees (to_Radians lambda);
     Altitude := h |}.

Definition wgs84_LLAToXYZ (l : LLA) : XYZ :=
  let lambda := Radians_F64 (Degrees_Radians (Latitude l)) in
  let phi := Radians_F64 (Degrees_Radians (Longitude l)) in
  let sinLambda := math.Sin lambda in
  let cosLambda := math.Cos lambda in
  let sinPhi := math.Sin phi in
  let cosPhi := math.Cos phi in
  let n := wgs84A / math.Sqrt (1 - wgs84ESq * sinLambda * sinLambda) in
  {| X := to_Meters ((Meters_F64 (Altitude l) + n) * cosLambda * cosPhi);
     Y := to_Meters ((Meters_F64 (Altitude l) + n) * cosLambda * sinPhi);
     Z := to_Meters ((Meters_F64 (Altitude l) + (1 - wgs84ESq) * n) * sinLambda) |}.

Definition wgs84_XYZToENU (ref : LLA) (e : XYZ) : ENU :=
  let lambda := Radians_F64 (Degrees_Radians (Latitude ref)) in
  let phi := Radians_F64 (Degrees_Radians (Longitude ref)) in
  let sinLambda := math.Sin lambda in
  let cosLambda := math.Cos lambda in
  let sinPhi := math.Sin phi in
  let cosPhi := math.Cos phi in
  let xref := wgs84_LLAToXYZ ref in
  let xd := Meters_F64 (X e - X xref) in
  let yd := Meters_F64 (Y e - Y xref) in
  let zd := Meters_F64 (Z e - Z xref) in
  {| East := to_Meters (- sinPhi * xd + cosPhi * yd);
     North := to_Meters (- cosPhi * sinLambda * xd - sinLambda * sinPhi * yd
                         + cosLambda * zd);
     Up := to_Meters (cosLambda * cosPhi * xd + cosLambda * sinPhi * yd
                      + sinLambda * zd) |}.

Definition wgs84_LLAToENU (ref lla : LLA) : ENU :=
  let xyz := wgs84_LLAToXYZ lla in
  wgs84_XYZToENU ref xyz.

Definition wgs84_ENUToXYZ (ref : LLA) (e : ENU) : XYZ :=
  let lambda := Radians_F64 (Degrees_Radians (Latitude ref)) in
  let phi := Radians_F64 (Degrees_Radians (Longitude ref)) in
  let s := math.Sin lambda in
  let n := wgs84A / math.Sqrt (1 - wgs84ESq * s * s) in
  let sinLambda := math.Sin lambda in
  let cosLambda := math.Cos lambda in
  let sinPhi := math.Sin phi in
  let cosPhi := math.Cos phi in
  let x0 := (Meters_F64 (Altitude ref) + n) * cosLambda * cosPhi in
  let y0 := (Meters_F64 (Altitude ref) + n) * cosLambda * sinPhi in
  let z0 := (Meters_F64 (Altitude ref) + (1 - wgs84ESq) * n) * sinLambda in
  let east := Meters_F64 (East e) in
  let north := Meters_F64 (North e) in
  let up := Meters_F64 (Up e) in
  let xd := - sinPhi * east - cosPhi * sinLambda * north + cosLambda * cosPhi * up in
  let yd := cosPhi * east - sinLambda * sinPhi * north + cosLambda * sinPhi * up in
  let zd := cosLambda * north + sinLambda * up in
  let x := xd + x0 in
  let y := yd + y0 in
  let z := zd + z0 in
  {| X := to_Meters x; Y := to_Meters y; Z := to_Meters z |}.

(** [func WGS84() CoordinateSystem { return wgs84{} }] *)
Definition WGS84 : CoordinateSystem :=
  {| LLAToXYZ := wgs84_LLAToXYZ;
     XYZToLLA := wgs84_XYZToLLA;
     XYZToENU := wgs84_XYZToENU;
     ENUToXYZ := wgs84_ENUToXYZ;
     LLAToENU := wgs84_LLAToENU |}.

(** ** haversine.go *)

Inductive error : Type := Errorf (msg : string).

Definition earthRadiusMeters : float64 := 6371000.

(** [func HaversineDistance(origin, position LLA) (Meters, error)];
    a [nil] error is [None]. *)
Definition HaversineDistance (origin position : LLA) : Meters * option error :=
  if float64_neq (Altitude origin) 0 || float64_neq (Altitude position) 0
  then (0, Some (Errorf "geo.HaversineDistance: Altitude must be 0"))
  else
    let originLon := Radians_F64 (Degrees_Radians (Longitude origin)) in
    let originLat := Radians_F64 (Degrees_Radians (Latitude origin)) in
    let positionLon := Radians_F64 (Degrees_Radians (Longitude position)) in
    let positionLat := Radians_F64 (Degrees_Radians (Latitude position)) in
    let deltaLon := originLon - positionLon in
    let deltaLat := originLat - positionLat in
    let a :=
      math.Pow (math.Sin (deltaLat / 2)) 2
      + math.Cos originLat * math.Cos positionLat
        * math.Pow (math.Sin (deltaLon / 2)) 2 in
    let c := 2 * math.Atan2 (math.Sqrt a) (math.Sqrt (1 - a)) in
    (to_Meters (earthRadiusMeters * c), None).

(** ** The unit conversions over IEEE-754 binary64 *)

Module Float64.

Import PrimFloat.
Local Open Scope float_scope.

(** [math.Pi / 180] and [180 / math.Pi] are untyped constant expressions:
    the Go compiler evaluates them exactly and rounds once, to the
    binary64 values 0.017453292519943295 and 57.29577951308232. *)
Definition Pi_div_180 : float := 0x1.1df46a2529d39p-6.
Definition _180_div_Pi : float := 0x1.ca5dc1a63c1f8p+5.

Definition Degrees_Radians (d : float) : float := Pi_div_180 * d.
Definition Radians_Degrees (r : float) : float := _180_div_Pi * r.

(** The relative-error test of the repository's tests ([assert.InEpsilon]),
    for an expected value other than zero: it passes unless
    [|expected - actual| / |expected| > epsilon]. *)
Definition InEpsilon (expected actual epsilon : float) : bool :=
  negb (epsilon <? abs (expected - actual) / abs expected).


(** The binary64 value of the literal [1e-9]. *)
Definition eps_1e9 : float := 0x1.12e0be826d695p-30.

(** Angles of everyday size; the last is the literal 38.897957. *)
Definition ordinary_degrees : list float :=
  (1 :: 45 :: 90 :: 180 :: 360 :: 0x1.372f041461b6dp+5 :: nil)%list.

End Float64.

(** ** Vocabulary of the specification *)

(** [actual] is within relative error [eps] of [expected]. *)
Definition within_rel (eps expected actual : R) : Prop :=
  Rabs (actual - expected) <= eps * Rabs expected.


(** * Properties *)

(** ** Go's comparison and casts *)

Lemma float64_neq_true (x y : float64) : x <> y -> float64_neq x y = true.
Proof. unfold float64_neq. destruct (Req_dec_T x y); [contradiction | reflexivity]. Qed.

Lemma float64_neq_false (x y : float64) : x = y -> float64_neq x y = false.
Proof. unfold float64_neq. destruct (Req_dec_T x y); [reflexivity | contradiction]. Qed.

Lemma float64_neq_iff (x y : float64) : float64_neq x y = true <-> x <> y.
Proof.
  split; [|apply float64_neq_true].
  unfold float64_neq. destruct (Req_dec_T x y); [discriminate | auto].
Qed.

(** ** Haversine: the altitude guard *)

Lemma HaversineDistance_guard (origin position : LLA) :
  Altitude origin <> 0 \/ Altitude position <> 0 ->
  HaversineDistance origin position
  = (0, Some (Errorf "geo.HaversineDistance: Altitude must be 0")).
Proof.
  intros H. unfold HaversineDistance.
  replace (float64_neq (Altitude origin) 0 || float64_neq (Altitude position) 0)%bool
    with true; [reflexivity|].
  symmetry. apply orb_true_iff.
  destruct H as [H|H]; [left|right]; now apply float64_neq_true.
Qed.

Lemma HaversineDistance_no_error (origin position : LLA) :
  Altitude origin = 0 -> Altitude position = 0 ->
  snd (HaversineDistance origin position) = None.
Proof.
  intros Ho Hp. unfold HaversineDistance.
  rewrite (float64_neq_false _ _ Ho), (float64_neq_false _ _ Hp). reflexivity.
Qed.

(** C3. [HaversineDistance] returns a non-nil error exactly when one of the
    two altitudes is not zero; so it errors for a point with nonzero altitude
    measured against itself, and never errors when both altitudes are zero. *)
Theorem HaversineDistance_error_iff_altitude :
  forall origin position : LLA,
    (snd (HaversineDistance origin position) <> None
     <-> (Altitude origin <> 0 \/ Altitude position <> 0))
    /\ (snd (HaversineDistance origin origin) <> None <-> Altitude origin <> 0)
    /\ (snd (HaversineDistance origin position) = None
        <-> (Altitude origin = 0 /\ Altitude position = 0)).
Proof.
  intros origin position.
  assert (E : forall o p : LLA,
             snd (HaversineDistance o p) <> None
             <-> (Altitude o <> 0 \/ Altitude p <> 0)).
  { intros o p. split.
    - intros Herr.
      destruct (Req_dec_T (Altitude o) 0) as [Ho|Ho]; [|now left].
      destruct (Req_dec_T (Altitude p) 0) as [Hp|Hp]; [|now right].
      exfalso. apply Herr. now apply HaversineDistance_no_error.
    - intros H. rewrite (HaversineDistance_guard _ _ H). discriminate. }
  split; [apply E|]. split.
  - rewrite E. tauto.
  - split.
    + intros Hnone.
      destruct (Req_dec_T (Altitude origin) 0) as [Ho|Ho];
        destruct (Req_dec_T (Altitude position) 0) as [Hp|Hp]; auto;
        exfalso; revert Hnone; apply E; auto.
    + intros [Ho Hp]. now apply HaversineDistance_no_error.
Qed.

(** C10. Whenever [HaversineDistance] returns a non-nil error, the distance
    returned next to it is exactly 0. *)
Theorem HaversineDistance_error_returns_zero :
  forall origin position : LLA,
    snd (HaversineDistance origin position) <> None ->
    fst (HaversineDistance origin position) = 0.
Proof.
  intros origin position Herr.
  destruct (Req_dec_T (Altitude origin) 0) as [Ho|Ho].
  - destruct (Req_dec_T (Altitude position) 0) as [Hp|Hp].
    + exfalso. apply Herr. now apply HaversineDistance_no_error.
    + rewrite HaversineDistance_guard by now right. reflexivity.
  - rewrite HaversineDistance_guard by now left. reflexivity.
Qed.

Lemma HaversineDistance_error_returns_zero_witness :
  snd (HaversineDistance (mkLLA 51.510357 (-0.116773) 10)
                         (mkLLA 51.510357 (-0.116773) 0)) <> None
  /\ fst (HaversineDistance (mkLLA 51.510357 (-0.116773) 10)
                            (mkLLA 51.510357 (-0.116773) 0)) = 0.
Proof.
  assert (H : snd (HaversineDistance (mkLLA 51.510357 (-0.116773) 10)
                                     (mkLLA 51.510357 (-0.116773) 0)) <> None).
  { rewrite HaversineDistance_guard; [discriminate|]. left. simpl. lra. }
  split; [exact H|].
  exact (HaversineDistance_error_returns_zero _ _ H).
Defined.

(** ** Unit conversions *)

(** Expose the real-number expression behind the unit types, their casts and
    the [math] functions. *)
Ltac unfold_units :=
  unfold Degrees_Radians, Radians_Degrees, Meters_F64, Degrees_F64, Radians_F64,
    to_Meters, to_Degrees, to_Radians, math.Sin, math.Cos, math.Sqrt, math.Pow,
    math.Pi, Meters, Degrees, Radians, float64 in *.


Lemma Degrees_Radians_Degrees (r : Radians) :
  Degrees_Radians (Radians_Degrees r) = r.
Proof. unfold_units. field. exact PI_neq0. Qed.


(** ** AER.ENU *)

(** C8. [AER.ENU()] returns East = Range sin(Az) cos(El),
    North = Range cos(Az) sin(El) and Up = Range sin(El), with the Azimuth and
    Elevation fields converted from degrees to radians. *)
Theorem AER_ENU_formula :
  forall aed : AER,
    let Azimuth_rad := PI / 180 * Azimuth aed in
    let Elevation_rad := PI / 180 * Elevation aed in
    AER_ENU aed
    = {| East := Range aed * sin Azimuth_rad * cos Elevation_rad;
         North := Range aed * cos Azimuth_rad * sin Elevation_rad;
         Up := Range aed * sin Elevation_rad |}.
Proof.
  intros aed Azimuth_rad Elevation_rad.
  unfold AER_ENU. unfold_units.
  fold Azimuth_rad Elevation_rad.
  f_equal; ring.
Qed.

(** ** wgs84.LLAToXYZ *)

(** C5. [LLAToXYZ] is the geodetic-to-Cartesian transform with the prime
    vertical radius N = a / sqrt(1 - e^2 sin^2 lat), for the WGS84 constants;
    the latitude drives N and Z, whatever the local variables are called. *)
Theorem wgs84_LLAToXYZ_formula :
  forall l : LLA,
    let lat := PI / 180 * Latitude l in
    let lon := PI / 180 * Longitude l in
    let alt := Altitude l in
    let a := 6378137.0 in
    let b := 6356752.314245 in
    let f := (a - b) / a in
    let e2 := f * (2 - f) in
    let N := a / sqrt (1 - e2 * (sin lat) ^ 2) in
    wgs84_LLAToXYZ l
    = {| X := (alt + N) * cos lat * cos lon;
         Y := (alt + N) * cos lat * sin lon;
         Z := (alt + (1 - e2) * N) * sin lat |}.
Proof.
  intros l lat lon alt a b f e2 N.
  unfold wgs84_LLAToXYZ. unfold_units.
  fold lat lon alt.
  change wgs84ESq with e2. change wgs84A with a.
  replace (1 - e2 * sin lat * sin lat) with (1 - e2 * sin lat ^ 2) by ring.
  reflexivity.
Qed.

(** ** Haversine: the formula *)

Lemma Rsqr_sin_half_swap (x y : R) :
  sin ((x - y) / 2) ^ 2 = sin ((y - x) / 2) ^ 2.
Proof.
  replace ((y - x) / 2) with (- ((x - y) / 2)) by field.
  rewrite sin_neg. ring.
Qed.

(** The value [HaversineDistance] returns past the altitude guard. *)
Lemma HaversineDistance_value (origin position : LLA) (dlat dlon : R) :
  Altitude origin = 0 -> Altitude position = 0 ->
  dlat = PI / 180 * Latitude origin - PI / 180 * Latitude position
  \/ dlat = PI / 180 * Latitude position - PI / 180 * Latitude origin ->
  dlon = PI / 180 * Longitude origin - PI / 180 * Longitude position
  \/ dlon = PI / 180 * Longitude position - PI / 180 * Longitude origin ->
  HaversineDistance origin position
  = (6371000
     * (2 * math.Atan2
              (sqrt (sin (dlat / 2) ^ 2
                     + cos (PI / 180 * Latitude origin)
                       * cos (PI / 180 * Latitude position)
                       * sin (dlon / 2) ^ 2))
              (sqrt (1 - (sin (dlat / 2) ^ 2
                          + cos (PI / 180 * Latitude origin)
                            * cos (PI / 180 * Latitude position)
                            * sin (dlon / 2) ^ 2)))),
     None).
Proof.
  intros Ho Hp Hdlat Hdlon.
  unfold HaversineDistance.
  rewrite (float64_neq_false _ _ Ho), (float64_neq_false _ _ Hp). simpl orb. cbv iota.
  unfold earthRadiusMeters. unfold_units.
  destruct Hdlat as [-> | ->], Hdlon as [-> | ->];
    rewrite ?(Rsqr_sin_half_swap (PI / 180 * Latitude position)),
            ?(Rsqr_sin_half_swap (PI / 180 * Longitude position));
    reflexivity.
Qed.

(** C6. With both altitudes zero, [HaversineDistance] returns R c and no
    error, where R = 6371000, c = 2 atan2(sqrt a, sqrt (1 - a)) and
    a = sin^2(dlat/2) + cos lat1 cos lat2 sin^2(dlon/2); the differences may
    be taken in either order. *)
Theorem HaversineDistance_formula :
  forall origin position : LLA,
    Altitude origin = 0 -> Altitude position = 0 ->
    let lat1 := PI / 180 * Latitude origin in
    let lon1 := PI / 180 * Longitude origin in
    let lat2 := PI / 180 * Latitude position in
    let lon2 := PI / 180 * Longitude position in
    forall dlat dlon : R,
      dlat = lat1 - lat2 \/ dlat = lat2 - lat1 ->
      dlon = lon1 - lon2 \/ dlon = lon2 - lon1 ->
      let a := sin (dlat / 2) ^ 2 + cos lat1 * cos lat2 * sin (dlon / 2) ^ 2 in
      let c := 2 * math.Atan2 (sqrt a) (sqrt (1 - a)) in
      HaversineDistance origin position = (6371000 * c, None).
Proof.
  intros origin position Ho Hp lat1 lon1 lat2 lon2 dlat dlon Hdlat Hdlon a c.
  exact (HaversineDistance_value origin position dlat dlon Ho Hp Hdlat Hdlon).
Qed.

Lemma HaversineDistance_formula_witness :
  let a := sin ((PI / 180 * 0 - PI / 180 * 0) / 2) ^ 2
           + cos (PI / 180 * 0) * cos (PI / 180 * 0)
             * sin ((PI / 180 * 0 - PI / 180 * 180) / 2) ^ 2 in
  HaversineDistance (mkLLA 0 0 0) (mkLLA 0 180 0)
  = (6371000 * (2 * math.Atan2 (sqrt a) (sqrt (1 - a))), None).
Proof.
  exact (HaversineDistance_formula (mkLLA 0 0 0) (mkLLA 0 180 0)
           eq_refl eq_refl
           (PI / 180 * 0 - PI / 180 * 0) (PI / 180 * 0 - PI / 180 * 180)
           (or_introl eq_refl) (or_introl eq_refl)).
Defined.

(** ** Haversine: symmetry and self-distance *)

Lemma Atan2_0_1 : math.Atan2 0 1 = 0.
Proof.
  unfold math.Atan2. destruct (Rlt_dec 0 1) as [_|H]; [|lra].
  replace (0 / 1) with 0 by field. exact atan_0.
Qed.

(** C7. For zero-altitude points the distance does not depend on the order
    of the two points, and the distance from a point to itself is exactly 0,
    returned with a nil error. *)
Theorem HaversineDistance_symmetric_zero :
  forall A B : LLA,
    Altitude A = 0 -> Altitude B = 0 ->
    HaversineDistance A B = HaversineDistance B A
    /\ HaversineDistance A A = (0, None).
Proof.
  intros A B HA HB. split.
  - rewrite (HaversineDistance_value A B _ _ HA HB
               (or_introl eq_refl) (or_introl eq_refl)).
    rewrite (HaversineDistance_value B A _ _ HB HA
               (or_intror eq_refl) (or_intror eq_refl)).
    rewrite (Rmult_comm (cos (PI / 180 * Latitude B))). reflexivity.
  - rewrite (HaversineDistance_value A A _ _ HA HA
               (or_introl eq_refl) (or_introl eq_refl)).
    unfold Degrees, float64 in *.
    replace ((PI / 180 * Latitude A - PI / 180 * Latitude A) / 2) with 0 by field.
    replace ((PI / 180 * Longitude A - PI / 180 * Longitude A) / 2) with 0 by field.
    rewrite sin_0.
    replace (0 ^ 2 + cos (PI / 180 * Latitude A) * cos (PI / 180 * Latitude A) * 0 ^ 2)
      with 0 by ring.
    replace (1 - 0) with 1 by ring.
    rewrite sqrt_0, sqrt_1, Atan2_0_1.
    f_equal. ring.
Qed.

Lemma HaversineDistance_symmetric_zero_witness :
  HaversineDistance (mkLLA 22.55 43.12 0) (mkLLA 13.45 100.28 0)
  = HaversineDistance (mkLLA 13.45 100.28 0) (mkLLA 22.55 43.12 0)
  /\ HaversineDistance (mkLLA 22.55 43.12 0) (mkLLA 22.55 43.12 0) = (0, None).
Proof.
  exact (HaversineDistance_symmetric_zero
           (mkLLA 22.55 43.12 0) (mkLLA 13.45 100.28 0) eq_refl eq_refl).
Defined.

(** ** Degrees <-> Radians round trip *)


(** In the ordinary range the binary64 round trip does stay within 1e-9. *)
Lemma Float64_roundtrip_examples :
  forall d : PrimFloat.float,
    List.In d Float64.ordinary_degrees ->
    Float64.InEpsilon d (Float64.Radians_Degrees (Float64.Degrees_Radians d))
                      Float64.eps_1e9 = true.
Proof.
  intros d Hd. unfold Float64.ordinary_degrees in Hd. simpl in Hd.
  repeat (destruct Hd as [<- | Hd]; [vm_compute; reflexivity|]).
  contradiction.
Qed.


(** ** Facts about [math.Atan2] *)

Lemma Atan2_pos_x (y x : R) : 0 < x -> math.Atan2 y x = atan (y / x).
Proof.
  intros Hx. unfold math.Atan2.
  destruct (Rlt_dec 0 x); [reflexivity | contradiction].
Qed.

Lemma atan_nonpos (t : R) : t <= 0 -> atan t <= 0.
Proof.
  intros [Ht | ->].
  - left. rewrite <- atan_0. now apply atan_increasing.
  - rewrite atan_0. apply Rle_refl.
Qed.

Lemma atan_pos (t : R) : 0 < t -> 0 < atan t.
Proof. intros Ht. rewrite <- atan_0. now apply atan_increasing. Qed.

(** The result of [math.Atan2] lies in (-Pi, Pi]. *)
Lemma Atan2_bound (y x : R) : - PI < math.Atan2 y x <= PI.
Proof.
  pose proof PI_RGT_0 as HPI.
  unfold math.Atan2.
  destruct (Rlt_dec 0 x) as [Hx|Hx].
  - pose proof (atan_bound (y / x)). lra.
  - destruct (Rlt_dec x 0) as [Hx'|Hx'].
    + destruct (Rle_dec 0 y) as [Hy|Hy].
      * assert (Hq : y / x <= 0).
        { pose proof (Rinv_lt_0_compat x Hx'). unfold Rdiv. nra. }
        pose proof (atan_nonpos _ Hq). pose proof (atan_bound (y / x)). lra.
      * assert (Hq : 0 < y / x).
        { pose proof (Rinv_lt_0_compat x Hx'). unfold Rdiv. nra. }
        pose proof (atan_pos _ Hq). pose proof (atan_bound (y / x)). lra.
    + destruct (Rlt_dec 0 y); [lra|]. destruct (Rlt_dec y 0); lra.
Qed.

Lemma Rabs_Atan2_le (y x : R) : Rabs (math.Atan2 y x) <= PI.
Proof. pose proof (Atan2_bound y x). apply Rabs_le. lra. Qed.

Lemma tan_plus_PI (t : R) : cos t <> 0 -> tan (t + PI) = tan t.
Proof. intros Ht. unfold tan. rewrite neg_sin, neg_cos. now field. Qed.

(** [math.Atan2] inverts polar coordinates on (-Pi, Pi]. *)
Lemma Atan2_polar (r theta : R) :
  0 < r -> - PI < theta <= PI ->
  math.Atan2 (r * sin theta) (r * cos theta) = theta.
Proof.
  intros Hr [Hlo Hhi]. pose proof PI_RGT_0 as HPI. unfold float64.
  assert (Hquot : forall t, cos t <> 0 -> (r * sin t) / (r * cos t) = tan t).
  { intros t Ht. unfold tan. field. split; [exact Ht | lra]. }
  destruct (Rlt_dec (- (PI / 2)) theta) as [H1|H1].
  - destruct (Rlt_dec theta (PI / 2)) as [H2|H2].
    + (* right half plane *)
      assert (Hc : 0 < cos theta) by now apply cos_gt_0.
      rewrite Atan2_pos_x by now apply Rmult_lt_0_compat.
      rewrite Hquot by lra. apply atan_tan. lra.
    + destruct (Req_dec_T theta (PI / 2)) as [-> | Hne].
      * (* straight up *)
        rewrite cos_PI2, sin_PI2. unfold math.Atan2.
        replace (r * 0) with 0 by ring. replace (r * 1) with r by ring.
        destruct (Rlt_dec 0 0); [lra|].
        destruct (Rlt_dec 0 r); [reflexivity | lra].
      * (* second quadrant *)
        assert (H3 : PI / 2 < theta) by lra.
        assert (Hc : cos theta < 0) by (apply cos_lt_0; lra).
        assert (Hs : 0 <= sin theta) by (apply sin_ge_0; lra).
        unfold math.Atan2.
        destruct (Rlt_dec 0 (r * cos theta)) as [Hx|_]; [nra|].
        destruct (Rlt_dec (r * cos theta) 0) as [_|Hx]; [|nra].
        destruct (Rle_dec 0 (r * sin theta)) as [_|Hy]; [|nra].
        rewrite Hquot by lra.
        assert (Hc2 : cos (theta - PI) = - cos theta).
        { pose proof (neg_cos (theta - PI)) as E.
          replace (theta - PI + PI) with theta in E by ring. lra. }
        replace (tan theta) with (tan (theta - PI)).
        { rewrite atan_tan; [ring | lra]. }
        rewrite <- (tan_plus_PI (theta - PI)) by lra. f_equal. ring.
  - destruct (Req_dec_T theta (- (PI / 2))) as [-> | Hne].
    + (* straight down *)
      rewrite cos_neg, sin_neg, cos_PI2, sin_PI2. unfold math.Atan2.
      replace (r * 0) with 0 by ring. replace (r * - (1)) with (- r) by ring.
      destruct (Rlt_dec 0 0); [lra|].
      destruct (Rlt_dec 0 (- r)); [lra|].
      destruct (Rlt_dec (- r) 0); [reflexivity | lra].
    + (* third quadrant *)
      assert (H3 : theta < - (PI / 2)) by lra.
      assert (Hc' : 0 < cos (theta + PI)) by (apply cos_gt_0; lra).
      assert (Hs' : 0 < sin (theta + PI)) by (apply sin_gt_0; lra).
      rewrite neg_cos in Hc'. rewrite neg_sin in Hs'.
      unfold math.Atan2.
      destruct (Rlt_dec 0 (r * cos theta)) as [Hx|_]; [nra|].
      destruct (Rlt_dec (r * cos theta) 0) as [_|Hx]; [|nra].
      destruct (Rle_dec 0 (r * sin theta)) as [Hy|_]; [nra|].
      rewrite Hquot by lra.
      replace (tan theta) with (tan (theta + PI)).
      { rewrite atan_tan; [ring | lra]. }
      apply tan_plus_PI. lra.
Qed.

Lemma Rabs_sin_le (x : R) : Rabs (sin x) <= Rabs x.
Proof.
  assert (Hpos : forall t, 0 < t -> - t <= sin t <= t).
  { intros t Ht. split; [|left; now apply sin_lt_x].
    destruct (Rlt_dec t PI) as [Hlt|Hge].
    - pose proof (sin_gt_0 t Ht Hlt). lra.
    - pose proof (SIN_bound t). pose proof PI2_1. lra. }
  destruct (Rtotal_order x 0) as [Hx | [-> | Hx]].
  - rewrite (Rabs_left x Hx). apply Rabs_le.
    destruct (Hpos (- x)) as [H1 H2]; [lra|]. rewrite sin_neg in H1, H2. lra.
  - rewrite sin_0. apply Rle_refl.
  - rewrite (Rabs_right x) by lra. apply Rabs_le. apply Hpos, Hx.
Qed.

(** ** ENU.AER *)

(** What [ENU.AER()] stores in the three fields. *)
Lemma ENU_AER_fields (enu : ENU) :
  Azimuth (ENU_AER enu) = math.Atan2 (East enu) (North enu)
  /\ Elevation (ENU_AER enu)
     = math.Atan2 (Up enu) (sqrt (East enu * East enu + North enu * North enu))
  /\ Range (ENU_AER enu)
     = sqrt (sqrt (East enu * East enu + North enu * North enu)
             * sqrt (East enu * East enu + North enu * North enu)
             + Up enu * Up enu).
Proof. repeat split. Qed.

(** The range is the Euclidean norm of the vector. *)
Lemma ENU_AER_Range (enu : ENU) :
  Range (ENU_AER enu)
  = sqrt (East enu * East enu + North enu * North enu + Up enu * Up enu).
Proof.
  destruct (ENU_AER_fields enu) as (_ & _ & ->).
  rewrite sqrt_def; [reflexivity|]. unfold Meters, float64 in *. nra.
Qed.

(** Converting a nonzero angle from radians to degrees changes the number. *)
Lemma Radians_Degrees_neq (x : R) : x <> 0 -> Radians_Degrees x <> x.
Proof.
  intros Hx. unfold_units. intros E.
  pose proof PI_RGT_0 as HPI. pose proof PI_4 as HPI4.
  assert (E' : 180 * x = PI * x).
  { rewrite <- E at 2. field. lra. }
  assert (E'' : (180 - PI) * x = 0) by lra.
  apply Rmult_integral in E''. lra.
Qed.

(** The angle fields hold the value of [math.Atan2] as it is, in radians:
    whenever the angle is not zero, the field differs from that angle
    expressed in degrees. *)
Lemma ENU_AER_angles_in_radians (enu : ENU) :
  (math.Atan2 (East enu) (North enu) <> 0 ->
   Azimuth (ENU_AER enu)
   <> Radians_Degrees (math.Atan2 (East enu) (North enu)))
  /\ (math.Atan2 (Up enu) (sqrt (East enu * East enu + North enu * North enu)) <> 0 ->
      Elevation (ENU_AER enu)
      <> Radians_Degrees
           (math.Atan2 (Up enu)
              (sqrt (East enu * East enu + North enu * North enu)))).
Proof.
  destruct (ENU_AER_fields enu) as (-> & -> & _).
  split; intros H E; symmetry in E; revert E; now apply Radians_Degrees_neq.
Qed.

Lemma Atan2_pos_pos (y x : R) : 0 < y -> 0 < x -> 0 < math.Atan2 y x.
Proof.
  intros Hy Hx. rewrite Atan2_pos_x by exact Hx.
  apply atan_pos. now apply Rdiv_lt_0_compat.
Qed.

(** C2, at ENU{East: 10, North: 20, Up: 30}: the Azimuth and Elevation
    fields are the radian values of atan2, not those angles expressed in
    degrees; only Range is as the claim says. *)
Theorem ENU_AER_10_20_30_not_degrees :
  let enu := mkENU 10 20 30 in
  let r := sqrt (10 * 10 + 20 * 20) in
  Azimuth (ENU_AER enu) = math.Atan2 10 20
  /\ Azimuth (ENU_AER enu) <> Radians_Degrees (math.Atan2 10 20)
  /\ Elevation (ENU_AER enu) = math.Atan2 30 r
  /\ Elevation (ENU_AER enu) <> Radians_Degrees (math.Atan2 30 r)
  /\ Range (ENU_AER enu) = sqrt (r * r + 30 * 30).
Proof.
  intros enu r.
  assert (Hr : 0 < r) by (apply sqrt_lt_R0; lra).
  destruct (ENU_AER_angles_in_radians enu) as [Haz Hel].
  split; [reflexivity|]. split.
  - apply Haz. apply Rgt_not_eq. apply Atan2_pos_pos; simpl; lra.
  - split; [reflexivity|]. split; [|reflexivity].
    apply Hel. apply Rgt_not_eq. apply Atan2_pos_pos; simpl; [lra | exact Hr].
Qed.

(** ** ENU -> AER -> ENU *)

Lemma Rabs_sin_small (ang : R) :
  Rabs ang <= PI -> Rabs (sin (PI / 180 * ang)) <= PI * PI / 180.
Proof.
  intros H. pose proof PI_RGT_0 as HPI.
  apply Rle_trans with (1 := Rabs_sin_le _).
  rewrite Rabs_mult, (Rabs_right (PI / 180)) by lra. nra.
Qed.

Lemma Rabs_mult_le_l (s c : R) : Rabs c <= 1 -> Rabs (s * c) <= Rabs s.
Proof. intros H. rewrite Rabs_mult. pose proof (Rabs_pos s). nra. Qed.

Lemma Rabs_cos_le_1 (x : R) : Rabs (cos x) <= 1.
Proof. apply Rabs_le. apply COS_bound. Qed.

(** Because [AER.ENU()] reads as degrees the radian values that [ENU.AER()]
    stored, every component of the round trip is at most Pi^2/180 (about
    5.5 percent) of the range. *)
Lemma ENU_AER_ENU_bound (enu : ENU) :
  let enu1 := AER_ENU (ENU_AER enu) in
  let k := Range (ENU_AER enu) * (PI * PI / 180) in
  Rabs (East enu1) <= k /\ Rabs (North enu1) <= k /\ Rabs (Up enu1) <= k.
Proof.
  intros enu1 k. subst enu1 k.
  destruct (ENU_AER_fields enu) as (Eaz & Eel & ERange).
  assert (HR : 0 <= Range (ENU_AER enu)) by (rewrite ERange; apply sqrt_pos).
  assert (Haz : Rabs (sin (PI / 180 * Azimuth (ENU_AER enu))) <= PI * PI / 180).
  { apply Rabs_sin_small. rewrite Eaz. apply Rabs_Atan2_le. }
  assert (Hel : Rabs (sin (PI / 180 * Elevation (ENU_AER enu))) <= PI * PI / 180).
  { apply Rabs_sin_small. rewrite Eel. apply Rabs_Atan2_le. }
  unfold AER_ENU. cbn [East North Up]. unfold_units.
  set (R0 := Range (ENU_AER enu)) in *.
  set (az := Azimuth (ENU_AER enu)) in *.
  set (el := Elevation (ENU_AER enu)) in *.
  repeat split; rewrite Rabs_mult, (Rabs_right R0) by lra;
    apply Rmult_le_compat_l; try exact HR.
  - apply Rle_trans with (2 := Haz). apply Rabs_mult_le_l, Rabs_cos_le_1.
  - rewrite Rmult_comm.
    apply Rle_trans with (2 := Hel). apply Rabs_mult_le_l, Rabs_cos_le_1.
  - exact Hel.
Qed.

(** Independently of the units, [AER.ENU()] gives North the sine of the
    elevation: every target on the horizon (elevation 0) is placed at North 0
    and Up 0, whatever its azimuth and range. *)
Lemma AER_ENU_horizon (az : Degrees) (rng : Meters) :
  North (AER_ENU (mkAER az 0 rng)) = 0 /\ Up (AER_ENU (mkAER az 0 rng)) = 0.
Proof.
  unfold AER_ENU. cbn [Azimuth Elevation Range North Up]. unfold_units.
  replace (PI / 180 * 0) with 0 by field. rewrite sin_0. split; ring.
Qed.

Lemma not_within_rel_small (eps e x : R) :
  0 < e -> Rabs x < (1 - eps) * e -> ~ within_rel eps e x.
Proof.
  intros He Hx H. unfold within_rel in H.
  rewrite (Rabs_right e) in H by lra.
  pose proof (Rle_abs x). pose proof (Rle_abs (- (x - e))) as H'.
  rewrite Rabs_Ropp in H'. lra.
Qed.

(** C1, at the vector of the repository's round-trip test,
    ENU{East: 10, North: 20, Up: 30}: none of the three components comes
    back within relative error 1e-6. *)
Theorem ENU_AER_ENU_10_20_30_fails :
  let enu := mkENU 10 20 30 in
  let enu1 := AER_ENU (ENU_AER enu) in
  ~ within_rel 1e-6 (East enu) (East enu1)
  /\ ~ within_rel 1e-6 (North enu) (North enu1)
  /\ ~ within_rel 1e-6 (Up enu) (Up enu1).
Proof.
  intros enu enu1.
  destruct (ENU_AER_ENU_bound enu) as (HE & HN & HU). fold enu1 in HE, HN, HU.
  assert (HR : Range (ENU_AER enu) <= 38).
  { rewrite ENU_AER_Range. cbn [East North Up enu].
    rewrite <- (sqrt_square 38) by lra. apply sqrt_le_1_alt. lra. }
  assert (HR0 : 0 <= Range (ENU_AER enu)).
  { rewrite ENU_AER_Range. apply sqrt_pos. }
  pose proof PI_RGT_0 as HPI. pose proof PI_4 as HPI4.
  assert (Hk : Range (ENU_AER enu) * (PI * PI / 180) <= 4) by nra.
  cbn [East North Up enu].
  repeat split; apply not_within_rel_small; lra.
Qed.

(** ** wgs84: XYZ -> ENU -> XYZ *)

(** The rotation into the tangent frame at [ref] and the one back are
    inverse to each other, and both translate by the same point. *)
Lemma wgs84_ENUToXYZ_XYZToENU (ref : LLA) (e : XYZ) :
  wgs84_ENUToXYZ ref (wgs84_XYZToENU ref e) = e.
Proof.
  destruct e as [x y z].
  unfold wgs84_ENUToXYZ, wgs84_XYZToENU, wgs84_LLAToXYZ.
  cbn [X Y Z East North Up]. unfold_units.
  set (lat := PI / 180 * Latitude ref). set (lon := PI / 180 * Longitude ref).
  pose proof (sin2_cos2 lat) as Hlat. pose proof (sin2_cos2 lon) as Hlon.
  unfold Rsqr in Hlat, Hlon.
  set (n := wgs84A / sqrt (1 - wgs84ESq * sin lat * sin lat)).
  set (x0 := (Altitude ref + n) * cos lat * cos lon).
  set (y0 := (Altitude ref + n) * cos lat * sin lon).
  set (z0 := (Altitude ref + (1 - wgs84ESq) * n) * sin lat).
  generalize dependent x0. generalize dependent y0. generalize dependent z0.
  generalize dependent (sin lat). generalize dependent (cos lat).
  generalize dependent (sin lon). generalize dependent (cos lon).
  intros cp sp Hlon c s Hlat _ z0 y0 x0.
  f_equal; nsatz.
Qed.

(** ** wgs84: the constants *)

Lemma wgs84A_pos : 0 < wgs84A.
Proof. unfold wgs84A. lra. Qed.

Lemma wgs84B_pos : 0 < wgs84B.
Proof. unfold wgs84B. lra. Qed.

(** 1 - e^2 = (b / a)^2. *)
Lemma wgs84ESq_compl : 1 - wgs84ESq = wgs84B / wgs84A * (wgs84B / wgs84A).
Proof.
  pose proof wgs84A_pos. unfold wgs84ESq, wgs84F. field. lra.
Qed.

Lemma wgs84ESq_bounds : 0 < wgs84ESq < 1.
Proof. unfold wgs84ESq, wgs84F, wgs84A, wgs84B. lra. Qed.

(** The quantity under the square root of the prime vertical radius. *)
Lemma wgs84_radicand_pos (lat : R) : 0 < 1 - wgs84ESq * sin lat * sin lat.
Proof.
  pose proof wgs84ESq_bounds. pose proof (SIN_bound lat).
  assert (sin lat * sin lat <= 1) by nra. nra.
Qed.

(** ** wgs84: points of the ellipsoid *)

(** If [c > 0] and [c^2 + s^2 = 1] then [atan (s / c)] is the angle whose
    cosine is [c] and whose sine is [s]. *)
Lemma cos_sin_atan_quot (c s : R) :
  0 < c -> c * c + s * s = 1 ->
  cos (atan (s / c)) = c /\ sin (atan (s / c)) = s.
Proof.
  intros Hc Hcs.
  assert (Hsq : sqrt (1 + (s / c)²) = / c).
  { replace (1 + (s / c)²) with (/ c * / c).
    - apply sqrt_square. left. now apply Rinv_0_lt_compat.
    - unfold Rsqr. apply (Rmult_eq_reg_l (c * c)); [|nra].
      transitivity 1; [field; lra|].
      transitivity (c * c + s * s); [lra|]. field. lra. }
  rewrite cos_atan, sin_atan, Hsq. split; field; lra.
Qed.

(** Geodetic coordinates of the point of the ellipsoid with parametric
    coordinates [(c, s)] (cosine and sine of the reduced latitude) and
    longitude [lon]: the closed-form inverse is exact there. *)
Lemma wgs84_XYZToLLA_ellipsoid (c s lon : R) :
  0 < c -> c * c + s * s = 1 -> - PI < lon <= PI ->
  let phi := atan (wgs84A / wgs84B * (s / c)) in
  wgs84_XYZToLLA {| X := wgs84A * c * cos lon;
                    Y := wgs84A * c * sin lon;
                    Z := wgs84B * s |}
  = {| Latitude := Radians_Degrees phi;
       Longitude := Radians_Degrees lon;
       Altitude := wgs84A * c / cos phi
                   - wgs84A / sqrt (1 - wgs84ESq * sin phi * sin phi) |}.
Proof.
  intros Hc Hcs Hlon phi.
  pose proof wgs84A_pos as HA. pose proof wgs84B_pos as HB.
  pose proof wgs84ESq_bounds as HE. pose proof wgs84ESq_compl as HE'.
  unfold wgs84_XYZToLLA. cbn [X Y Z].
  unfold Meters_F64, to_Meters, to_Radians, math.Sin, math.Cos, math.Sqrt,
    Meters, float64.
  (* p *)
  assert (Hp : sqrt (wgs84A * c * cos lon * (wgs84A * c * cos lon)
                     + wgs84A * c * sin lon * (wgs84A * c * sin lon))
               = wgs84A * c).
  { pose proof (sin2_cos2 lon) as H. unfold Rsqr in H.
    replace (wgs84A * c * cos lon * (wgs84A * c * cos lon)
             + wgs84A * c * sin lon * (wgs84A * c * sin lon))
      with (wgs84A * c * (wgs84A * c)) by nsatz.
    apply sqrt_square. nra. }
  rewrite Hp.
  (* q *)
  assert (Hq : math.Atan2 (wgs84B * s * wgs84A) (wgs84A * c * wgs84B)
               = atan (s / c)).
  { rewrite Atan2_pos_x by (apply Rmult_lt_0_compat; [apply Rmult_lt_0_compat|]; assumption).
    f_equal. field. lra. }
  rewrite Hq.
  destruct (cos_sin_atan_quot c s Hc Hcs) as [-> ->].
  (* phi *)
  assert (Hden : 0 < wgs84A * c - wgs84ESq * wgs84A * (c * c * c)).
  { assert (c * c <= 1) by nra.
    replace (wgs84A * c - wgs84ESq * wgs84A * (c * c * c))
      with (wgs84A * c * (1 - wgs84ESq * (c * c))) by ring.
    apply Rmult_lt_0_compat; nra. }
  assert (Hphi : math.Atan2
                   (wgs84B * s + wgs84ESq / (1 - wgs84ESq) * wgs84B * (s * s * s))
                   (wgs84A * c - wgs84ESq * wgs84A * (c * c * c))
                 = phi).
  { rewrite Atan2_pos_x by exact Hden. unfold phi. f_equal.
    assert (Hs2 : s * s = 1 - c * c) by lra.
    replace (s * s * s) with (s * (1 - c * c)) by (rewrite <- Hs2; ring).
    assert (Hu : 0 < 1 - wgs84ESq * (c * c)).
    { assert (c * c <= 1) by nra. nra. }
    replace (wgs84B * s + wgs84ESq / (1 - wgs84ESq) * wgs84B * (s * (1 - c * c)))
      with (wgs84B * s * (1 - wgs84ESq * (c * c)) / (1 - wgs84ESq))
      by (field; lra).
    replace (wgs84A * c - wgs84ESq * wgs84A * (c * c * c))
      with (wgs84A * c * (1 - wgs84ESq * (c * c))) by ring.
    set (u := 1 - wgs84ESq * (c * c)) in *.
    rewrite HE'. field. repeat split; lra. }
  rewrite Hphi.
  (* lambda *)
  rewrite (Atan2_polar (wgs84A * c) lon)
    by (first [exact Hlon | apply Rmult_lt_0_compat; assumption]).
  replace 1.0 with 1 by lra.
  reflexivity.
Qed.

(** [LLAToXYZ] of a point of zero altitude, in parametric form. *)
Lemma wgs84_LLAToXYZ_ellipsoid (lla : LLA) :
  Altitude lla = 0 ->
  let lat := PI / 180 * Latitude lla in
  let lon := PI / 180 * Longitude lla in
  let W := sqrt (1 - wgs84ESq * sin lat * sin lat) in
  wgs84_LLAToXYZ lla
  = {| X := wgs84A * (cos lat / W) * cos lon;
       Y := wgs84A * (cos lat / W) * sin lon;
       Z := wgs84B * (wgs84B / wgs84A * sin lat / W) |}.
Proof.
  intros Halt lat lon W.
  pose proof wgs84A_pos as HA. pose proof wgs84ESq_compl as HE'.
  assert (HW : 0 < W) by apply sqrt_lt_R0, wgs84_radicand_pos.
  unfold wgs84_LLAToXYZ. rewrite Halt. unfold_units.
  fold lat lon W. rewrite HE'.
  f_equal; field; lra.
Qed.


(** Adding a full turn to the longitude does not move the point. *)
Lemma wgs84_LLAToXYZ_full_turn (lat lon alt : R) :
  wgs84_LLAToXYZ (mkLLA lat (lon + 360) alt) = wgs84_LLAToXYZ (mkLLA lat lon alt).
Proof.
  unfold wgs84_LLAToXYZ. cbn [Latitude Longitude Altitude]. unfold_units.
  replace (PI / 180 * (lon + 360)) with (PI / 180 * lon + 2 * PI) by field.
  rewrite sin_plus, cos_plus, sin_2PI, cos_2PI.
  f_equal; ring.
Qed.







(** * Further properties of the code *)

(** ** More about [math.Atan2] *)

Lemma cos_sin_minus_PI (t : R) : cos (t - PI) = - cos t /\ sin (t - PI) = - sin t.
Proof. rewrite cos_minus, sin_minus, cos_PI, sin_PI. split; ring. Qed.

(** [math.Atan2 y x] is the polar angle of the point [(x, y)]. *)
Lemma Atan2_polar_decomposition (y x : R) :
  0 < x * x + y * y ->
  sqrt (x * x + y * y) * cos (math.Atan2 y x) = x
  /\ sqrt (x * x + y * y) * sin (math.Atan2 y x) = y.
Proof.
  intros Hpos.
  set (rho := sqrt (x * x + y * y)).
  assert (Hrho : 0 < rho) by now apply sqrt_lt_R0.
  assert (Hrho2 : rho * rho = x * x + y * y) by (apply sqrt_def; lra).
  assert (Hquad : forall c s, 0 < c -> c * c + s * s = rho * rho ->
                    cos (atan (s / c)) = c / rho /\ sin (atan (s / c)) = s / rho).
  { intros c s Hc Hcs.
    replace (s / c) with ((s / rho) / (c / rho)) by (field; lra).
    apply cos_sin_atan_quot.
    - now apply Rdiv_lt_0_compat.
    - replace (c / rho * (c / rho) + s / rho * (s / rho))
        with ((c * c + s * s) / (rho * rho)) by (field; lra).
      rewrite Hcs. field. lra. }
  unfold math.Atan2.
  destruct (Rlt_dec 0 x) as [Hx|Hx].
  - destruct (Hquad x y Hx) as [-> ->]; [lra|]. split; field; lra.
  - destruct (Rlt_dec x 0) as [Hx'|Hx'].
    + assert (Eq : y / x = (- y) / (- x)) by (field; lra).
      destruct (Hquad (- x) (- y)) as [Hc Hs]; [lra | lra |].
      rewrite <- Eq in Hc, Hs.
      destruct (Rle_dec 0 y) as [Hy|Hy].
      * rewrite neg_cos, neg_sin, Hc, Hs. split; field; lra.
      * destruct (cos_sin_minus_PI (atan (y / x))) as [-> ->].
        rewrite Hc, Hs. split; field; lra.
    + assert (x = 0) by lra. subst x.
      assert (Hy2 : rho * rho = y * y) by lra.
      destruct (Rlt_dec 0 y) as [Hy|Hy].
      * rewrite cos_PI2, sin_PI2. split; [ring|]. nra.
      * destruct (Rlt_dec y 0) as [Hy'|Hy'].
        -- rewrite cos_neg, sin_neg, cos_PI2, sin_PI2. split; [ring|]. nra.
        -- exfalso. assert (y = 0) by lra. subst y. lra.
Qed.


(** ** Unit conversions *)


(** ** ENU.AER *)

Lemma Atan2_right_half (y x : R) :
  0 <= x -> - (PI / 2) <= math.Atan2 y x <= PI / 2.
Proof.
  intros Hx. pose proof PI_RGT_0 as HPI. unfold math.Atan2.
  destruct (Rlt_dec 0 x) as [Hx'|Hx'].
  - pose proof (atan_bound (y / x)). lra.
  - destruct (Rlt_dec x 0); [lra|].
    destruct (Rlt_dec 0 y); [lra|]. destruct (Rlt_dec y 0); lra.
Qed.



(** X3. The numbers that [ENU.AER()] stores in Azimuth and Elevation are
    bounded like radians: Azimuth lies in (-Pi, Pi] and Elevation in
    [-Pi/2, Pi/2], for every vector. *)
Theorem ENU_AER_angle_ranges :
  forall enu : ENU,
    - PI < Azimuth (ENU_AER enu) <= PI
    /\ - (PI / 2) <= Elevation (ENU_AER enu) <= PI / 2.
Proof.
  intros enu. destruct (ENU_AER_fields enu) as (-> & -> & _). split.
  - apply Atan2_bound.
  - apply Atan2_right_half, sqrt_pos.
Qed.


(** ** AER.ENU *)

Lemma Rabs_sin_le_1 (x : R) : Rabs (sin x) <= 1.
Proof. apply Rabs_le. apply SIN_bound. Qed.

(** X5. No component of [aer.ENU()] is longer than the range, and East and
    Up together are not either. *)
Theorem AER_ENU_component_bounds :
  forall aed : AER,
    Rabs (East (AER_ENU aed)) <= Rabs (Range aed)
    /\ Rabs (North (AER_ENU aed)) <= Rabs (Range aed)
    /\ Rabs (Up (AER_ENU aed)) <= Rabs (Range aed)
    /\ East (AER_ENU aed) * East (AER_ENU aed)
       + Up (AER_ENU aed) * Up (AER_ENU aed)
       <= Range aed * Range aed.
Proof.
  intros [az el rng]. unfold AER_ENU. cbn [Azimuth Elevation Range East North Up].
  unfold_units.
  set (a := PI / 180 * az). set (t := PI / 180 * el).
  pose proof (Rabs_sin_le_1 a) as Hsa. pose proof (Rabs_cos_le_1 a) as Hca.
  pose proof (Rabs_sin_le_1 t) as Hst. pose proof (Rabs_cos_le_1 t) as Hct.
  pose proof (Rabs_pos rng) as Hr.
  pose proof (Rabs_pos (sin a)). pose proof (Rabs_pos (cos a)).
  pose proof (Rabs_pos (sin t)). pose proof (Rabs_pos (cos t)).
  repeat split.
  - apply Rabs_mult_le_l.
    apply Rle_trans with (2 := Hsa). now apply Rabs_mult_le_l.
  - apply Rabs_mult_le_l.
    apply Rle_trans with (2 := Hca). now apply Rabs_mult_le_l.
  - now apply Rabs_mult_le_l.
  - pose proof (sin2_cos2 t) as Ht. pose proof (sin2_cos2 a) as Ha.
    unfold Rsqr in Ht, Ha.
    assert (Hsa2 : sin a * sin a <= 1) by nra.
    assert (Hprod : sin a * sin a * (cos t * cos t) <= cos t * cos t).
    { assert (0 <= cos t * cos t) by nra. nra. }
    assert (0 <= rng * rng) by nra.
    replace (rng * (sin a * cos t) * (rng * (sin a * cos t))
             + rng * sin t * (rng * sin t))
      with (rng * rng * (sin a * sin a * (cos t * cos t) + sin t * sin t)) by ring.
    nra.
Qed.

(** X6. At elevation 0 [AER.ENU()] returns North = 0 and Up = 0 whatever
    the azimuth (East = Range sin(Az)); at elevation 90 it returns East = 0,
    North = Range cos(Az) and Up = Range. *)
Theorem AER_ENU_horizon_and_zenith :
  forall (az : Degrees) (rng : Meters),
    AER_ENU (mkAER az 0 rng) = mkENU (rng * sin (PI / 180 * az)) 0 0
    /\ AER_ENU (mkAER az 90 rng) = mkENU 0 (rng * cos (PI / 180 * az)) rng.
Proof.
  intros az rng. unfold AER_ENU. cbn [Azimuth Elevation Range]. unfold_units.
  replace (PI / 180 * 0) with 0 by field.
  replace (PI / 180 * 90) with (PI / 2) by field.
  rewrite sin_0, cos_0, sin_PI2, cos_PI2. split; f_equal; ring.
Qed.

(** X7. [AER.ENU()] is periodic: adding a full turn of 360 degrees to the
    azimuth or to the elevation does not change the result. *)
Theorem AER_ENU_full_turn :
  forall (az el : Degrees) (rng : Meters),
    AER_ENU (mkAER (az + 360) el rng) = AER_ENU (mkAER az el rng)
    /\ AER_ENU (mkAER az (el + 360) rng) = AER_ENU (mkAER az el rng).
Proof.
  intros az el rng. unfold AER_ENU. cbn [Azimuth Elevation Range]. unfold_units.
  replace (PI / 180 * (az + 360)) with (PI / 180 * az + 2 * PI) by field.
  replace (PI / 180 * (el + 360)) with (PI / 180 * el + 2 * PI) by field.
  rewrite !sin_plus, !cos_plus, sin_2PI, cos_2PI. split; f_equal; ring.
Qed.

(** ** ENU -> AER -> ENU *)

(** X8. [enu.AER().ENU()] gives back [enu] for the zero vector and for no
    other vector. *)
Theorem ENU_AER_ENU_fixes_only_zero :
  forall enu : ENU, AER_ENU (ENU_AER enu) = enu <-> enu = mkENU 0 0 0.
Proof.
  intros enu. split.
  - intros Hfix.
    destruct (ENU_AER_ENU_bound enu) as (HE & HN & HU). rewrite Hfix in HE, HN, HU.
    pose proof (ENU_AER_Range enu) as HR.
    assert (HR0 : 0 <= Range (ENU_AER enu)) by (rewrite HR; apply sqrt_pos).
    assert (HR2 : Range (ENU_AER enu) * Range (ENU_AER enu)
                  = East enu * East enu + North enu * North enu + Up enu * Up enu).
    { rewrite HR. apply sqrt_def. unfold Meters, float64 in *. nra. }
    pose proof PI_RGT_0 as HPI. pose proof PI_4 as HPI4.
    set (k := Range (ENU_AER enu) * (PI * PI / 180)) in *.
    assert (Hk : 0 <= k <= Range (ENU_AER enu) / 10).
    { assert (HPI2 : 0 <= PI * PI <= 16) by nra.
      subst k. set (q := PI * PI) in *. split; [apply Rmult_le_pos; lra | nra]. }
    destruct enu as [e n u]. cbn [East North Up] in *.
    unfold Meters, float64 in *.
    assert (He : e * e <= k * k).
    { pose proof (Rabs_pos e). replace (e * e) with (Rabs e * Rabs e);
        [nra | unfold Rabs; destruct (Rcase_abs e); ring]. }
    assert (Hn : n * n <= k * k).
    { pose proof (Rabs_pos n). replace (n * n) with (Rabs n * Rabs n);
        [nra | unfold Rabs; destruct (Rcase_abs n); ring]. }
    assert (Hu : u * u <= k * k).
    { pose proof (Rabs_pos u). replace (u * u) with (Rabs u * Rabs u);
        [nra | unfold Rabs; destruct (Rcase_abs u); ring]. }
    assert (Hz : e * e + n * n + u * u <= 0) by nra.
    assert (e = 0 /\ n = 0 /\ u = 0) as (-> & -> & ->) by (repeat split; nra).
    reflexivity.
  - intros ->. unfold AER_ENU, ENU_AER. cbn [East North Up Azimuth Elevation Range].
    unfold_units. f_equal.
    all: replace (0 * 0 + 0 * 0) with 0 by ring; rewrite sqrt_0;
      replace (0 * 0 + 0 * 0) with 0 by ring; rewrite sqrt_0; ring.
Qed.

(** ** wgs84: the tangent frame *)

Lemma wgs84_XYZToENU_ENUToXYZ (ref : LLA) (e : ENU) :
  wgs84_XYZToENU ref (wgs84_ENUToXYZ ref e) = e.
Proof.
  destruct e as [east north up].
  unfold wgs84_ENUToXYZ, wgs84_XYZToENU, wgs84_LLAToXYZ.
  cbn [X Y Z East North Up]. unfold_units.
  set (lat := PI / 180 * Latitude ref). set (lon := PI / 180 * Longitude ref).
  pose proof (sin2_cos2 lat) as Hlat. pose proof (sin2_cos2 lon) as Hlon.
  unfold Rsqr in Hlat, Hlon.
  set (n := wgs84A / sqrt (1 - wgs84ESq * sin lat * sin lat)).
  set (x0 := (Altitude ref + n) * cos lat * cos lon).
  set (y0 := (Altitude ref + n) * cos lat * sin lon).
  set (z0 := (Altitude ref + (1 - wgs84ESq) * n) * sin lat).
  generalize dependent x0. generalize dependent y0. generalize dependent z0.
  generalize dependent (sin lat). generalize dependent (cos lat).
  generalize dependent (sin lon). generalize dependent (cos lon).
  intros cp sp Hlon c s Hlat _ z0 y0 x0.
  f_equal; nsatz.
Qed.

(** X9. At any reference, [XYZToENU] and [ENUToXYZ] are inverse to each
    other, in both directions. *)
Theorem wgs84_XYZToENU_ENUToXYZ_inverse :
  forall (ref : LLA) (xyz : XYZ) (enu : ENU),
    ENUToXYZ WGS84 ref (XYZToENU WGS84 ref xyz) = xyz
    /\ XYZToENU WGS84 ref (ENUToXYZ WGS84 ref enu) = enu.
Proof.
  intros ref xyz enu. cbn [WGS84 ENUToXYZ XYZToENU]. split.
  - apply wgs84_ENUToXYZ_XYZToENU.
  - apply wgs84_XYZToENU_ENUToXYZ.
Qed.

(** X10. [XYZToENU] keeps distances: two points are as far apart in the
    tangent frame of any reference as they are in the earth-centred frame. *)
Theorem wgs84_XYZToENU_isometry :
  forall (ref : LLA) (p q : XYZ),
    let p' := wgs84_XYZToENU ref p in
    let q' := wgs84_XYZToENU ref q in
    (East p' - East q') * (East p' - East q')
    + (North p' - North q') * (North p' - North q')
    + (Up p' - Up q') * (Up p' - Up q')
    = (X p - X q) * (X p - X q) + (Y p - Y q) * (Y p - Y q)
      + (Z p - Z q) * (Z p - Z q).
Proof.
  intros ref [px py pz] [qx qy qz] p' q'. subst p' q'.
  unfold wgs84_XYZToENU. cbn [X Y Z East North Up]. unfold_units.
  set (lat := PI / 180 * Latitude ref). set (lon := PI / 180 * Longitude ref).
  pose proof (sin2_cos2 lat) as Hlat. pose proof (sin2_cos2 lon) as Hlon.
  unfold Rsqr in Hlat, Hlon.
  generalize dependent (X (wgs84_LLAToXYZ ref)).
  generalize dependent (Y (wgs84_LLAToXYZ ref)).
  generalize dependent (Z (wgs84_LLAToXYZ ref)).
  generalize dependent (sin lat). generalize dependent (cos lat).
  generalize dependent (sin lon). generalize dependent (cos lon).
  intros cp sp Hlon c s Hlat z0 y0 x0.
  nsatz.
Qed.

(** X11. The reference is the origin of its own tangent frame:
    [LLAToENU(ref, ref)] is the zero vector, and [ENUToXYZ] sends the zero
    vector to the Cartesian position of the reference. *)
Theorem wgs84_reference_is_origin :
  forall ref : LLA,
    LLAToENU WGS84 ref ref = mkENU 0 0 0
    /\ XYZToENU WGS84 ref (LLAToXYZ WGS84 ref) = mkENU 0 0 0
    /\ ENUToXYZ WGS84 ref (mkENU 0 0 0) = LLAToXYZ WGS84 ref.
Proof.
  intros ref. cbn [WGS84 LLAToENU XYZToENU ENUToXYZ LLAToXYZ].
  assert (E : wgs84_XYZToENU ref (wgs84_LLAToXYZ ref) = mkENU 0 0 0).
  { unfold wgs84_XYZToENU. unfold_units. f_equal; ring. }
  split; [exact E|]. split; [exact E|].
  rewrite <- E. apply wgs84_ENUToXYZ_XYZToENU.
Qed.

(** X12. A position straight above (or below) the reference, at the same
    latitude and longitude and [h] metres higher, has tangent-plane
    coordinates East = 0, North = 0, Up = h. *)
Theorem wgs84_LLAToENU_straight_up :
  forall (ref : LLA) (h : Meters),
    LLAToENU WGS84 ref
      (mkLLA (Latitude ref) (Longitude ref) (Altitude ref + h))
    = mkENU 0 0 h.
Proof.
  intros [lat lon alt] h. cbn [WGS84 LLAToENU].
  unfold wgs84_LLAToENU, wgs84_XYZToENU, wgs84_LLAToXYZ.
  cbn [X Y Z Latitude Longitude Altitude]. unfold_units.
  set (la := PI / 180 * lat). set (lo := PI / 180 * lon).
  pose proof (sin2_cos2 la) as Hlat. pose proof (sin2_cos2 lo) as Hlon.
  unfold Rsqr in Hlat, Hlon.
  generalize dependent (wgs84A / sqrt (1 - wgs84ESq * sin la * sin la)).
  generalize dependent (sin la). generalize dependent (cos la).
  generalize dependent (sin lo). generalize dependent (cos lo).
  intros cp sp Hlon c s Hlat n.
  f_equal; nsatz.
Qed.

(** ** wgs84.LLAToXYZ *)

Lemma wgs84B_lt_A : wgs84B < wgs84A.
Proof. unfold wgs84A, wgs84B. lra. Qed.

(** The parametric coordinates lie on the unit circle at every latitude. *)
Lemma wgs84_parametric_circle (lat : R) :
  let W := sqrt (1 - wgs84ESq * sin lat * sin lat) in
  let c := cos lat / W in
  let s := wgs84B / wgs84A * sin lat / W in
  c * c + s * s = 1.
Proof.
  intros W c s.
  pose proof wgs84A_pos as HA. pose proof wgs84ESq_compl as HE'.
  assert (HW : 0 < W) by apply sqrt_lt_R0, wgs84_radicand_pos.
  assert (HW2 : W * W = 1 - wgs84ESq * sin lat * sin lat).
  { apply sqrt_def. left. apply wgs84_radicand_pos. }
  pose proof (sin2_cos2 lat) as H1. unfold Rsqr in H1.
  subst c s.
  replace (cos lat / W * (cos lat / W)
           + wgs84B / wgs84A * sin lat / W * (wgs84B / wgs84A * sin lat / W))
    with ((cos lat * cos lat
           + wgs84B / wgs84A * (wgs84B / wgs84A) * (sin lat * sin lat))
          / (W * W)) by (field; lra).
  rewrite <- HE', HW2.
  replace (cos lat * cos lat + (1 - wgs84ESq) * (sin lat * sin lat))
    with (1 - wgs84ESq * sin lat * sin lat) by nsatz.
  field. rewrite <- HW2. nra.
Qed.

(** X13. Every position of altitude 0 is mapped by [LLAToXYZ] onto the
    ellipsoid X^2/a^2 + Y^2/a^2 + Z^2/b^2 = 1, so its distance from the
    centre is between the semiminor and the semimajor axis. *)
Theorem wgs84_LLAToXYZ_on_ellipsoid :
  forall lla : LLA,
    Altitude lla = 0 ->
    let p := wgs84_LLAToXYZ lla in
    X p * X p / wgs84ASq + Y p * Y p / wgs84ASq + Z p * Z p / wgs84BSq = 1
    /\ wgs84BSq <= X p * X p + Y p * Y p + Z p * Z p <= wgs84ASq.
Proof.
  intros lla Halt p. subst p.
  rewrite (wgs84_LLAToXYZ_ellipsoid lla Halt). cbn [X Y Z].
  pose proof wgs84A_pos as HA. pose proof wgs84B_pos as HB.
  pose proof wgs84B_lt_A as HBA.
  pose proof (wgs84_parametric_circle (PI / 180 * Latitude lla)) as Hcs.
  cbv zeta in Hcs. unfold wgs84ASq, wgs84BSq. unfold_units.
  set (c := cos (PI / 180 * Latitude lla)
            / sqrt (1 - wgs84ESq * sin (PI / 180 * Latitude lla)
                                 * sin (PI / 180 * Latitude lla))) in *.
  set (s := wgs84B / wgs84A * sin (PI / 180 * Latitude lla)
            / sqrt (1 - wgs84ESq * sin (PI / 180 * Latitude lla)
                                 * sin (PI / 180 * Latitude lla))) in *.
  pose proof (sin2_cos2 (PI / 180 * Longitude lla)) as Hlon. unfold Rsqr in Hlon.
  set (sl := sin (PI / 180 * Longitude lla)) in *.
  set (cl := cos (PI / 180 * Longitude lla)) in *.
  assert (E : wgs84A * c * cl * (wgs84A * c * cl)
              + wgs84A * c * sl * (wgs84A * c * sl)
              = wgs84A * wgs84A * (c * c)) by nsatz.
  split.
  - replace (wgs84A * c * cl * (wgs84A * c * cl) / (wgs84A * wgs84A)
             + wgs84A * c * sl * (wgs84A * c * sl) / (wgs84A * wgs84A)
             + wgs84B * s * (wgs84B * s) / (wgs84B * wgs84B))
      with (c * c * (sl * sl + cl * cl) + s * s) by (field; lra).
    rewrite Hlon. lra.
  - rewrite E.
    replace (wgs84B * s * (wgs84B * s)) with (wgs84B * wgs84B * (s * s)) by ring.
    assert (Hc2 : 0 <= c * c) by nra. assert (Hs2 : 0 <= s * s) by nra.
    assert (HAB : wgs84B * wgs84B <= wgs84A * wgs84A) by nra.
    split; nra.
Qed.

Lemma wgs84_LLAToXYZ_on_ellipsoid_witness :
  let p := wgs84_LLAToXYZ (mkLLA 38.8709455 (-77.0552551) 0) in
  wgs84BSq <= X p * X p + Y p * Y p + Z p * Z p <= wgs84ASq.
Proof.
  exact (proj2 (wgs84_LLAToXYZ_on_ellipsoid
                  (mkLLA 38.8709455 (-77.0552551) 0) eq_refl)).
Defined.

(** X14. [LLAToXYZ] is periodic: adding 360 degrees to the longitude or to
    the latitude does not move the point. *)
Theorem wgs84_LLAToXYZ_periodic :
  forall (lat lon : Degrees) (alt : Meters),
    LLAToXYZ WGS84 (mkLLA lat (lon + 360) alt) = LLAToXYZ WGS84 (mkLLA lat lon alt)
    /\ LLAToXYZ WGS84 (mkLLA (lat + 360) lon alt)
       = LLAToXYZ WGS84 (mkLLA lat lon alt).
Proof.
  intros lat lon alt. cbn [WGS84 LLAToXYZ]. split.
  - apply wgs84_LLAToXYZ_full_turn.
  - unfold wgs84_LLAToXYZ. cbn [Latitude Longitude Altitude]. unfold_units.
    replace (PI / 180 * (lat + 360)) with (PI / 180 * lat + 2 * PI) by field.
    rewrite sin_plus, cos_plus, sin_2PI, cos_2PI.
    replace (sin (PI / 180 * lat) * 1 + cos (PI / 180 * lat) * 0)
      with (sin (PI / 180 * lat)) by ring.
    replace (cos (PI / 180 * lat) * 1 - sin (PI / 180 * lat) * 0)
      with (cos (PI / 180 * lat)) by ring.
    reflexivity.
Qed.

Lemma wgs84_sqrt_compl : sqrt (1 - wgs84ESq) = wgs84B / wgs84A.
Proof.
  pose proof wgs84A_pos. pose proof wgs84B_pos.
  rewrite wgs84ESq_compl. apply sqrt_square.
  left. now apply Rdiv_lt_0_compat.
Qed.

(** X15. At latitude 90 or -90 the longitude does not matter: [LLAToXYZ]
    returns the point of the polar axis at distance b + altitude from the
    centre, on the northern or the southern side. *)
Theorem wgs84_LLAToXYZ_poles :
  forall (lon : Degrees) (alt : Meters),
    wgs84_LLAToXYZ (mkLLA 90 lon alt) = mkXYZ 0 0 (alt + wgs84B)
    /\ wgs84_LLAToXYZ (mkLLA (-90) lon alt) = mkXYZ 0 0 (- (alt + wgs84B)).
Proof.
  intros lon alt.
  pose proof wgs84A_pos as HA. pose proof wgs84B_pos as HB.
  pose proof wgs84ESq_compl as HE'.
  unfold wgs84_LLAToXYZ. cbn [Latitude Longitude Altitude]. unfold_units.
  replace (PI / 180 * 90) with (PI / 2) by field.
  replace (PI / 180 * -90) with (- (PI / 2)) by field.
  rewrite cos_neg, sin_neg, cos_PI2, sin_PI2.
  replace (1 - wgs84ESq * - (1) * - (1)) with (1 - wgs84ESq) by ring.
  replace (1 - wgs84ESq * 1 * 1) with (1 - wgs84ESq) by ring.
  rewrite wgs84_sqrt_compl, HE'.
  split; f_equal; field; lra.
Qed.

(** ** wgs84.XYZToLLA *)



(** X17. On the ellipsoid, away from the polar axis, [XYZToLLA] is exact:
    it returns altitude 0, and [LLAToXYZ] takes its result back to the
    point. *)
Theorem wgs84_LLAToXYZ_XYZToLLA_on_ellipsoid :
  forall xyz : XYZ,
    X xyz * X xyz / wgs84ASq + Y xyz * Y xyz / wgs84ASq
    + Z xyz * Z xyz / wgs84BSq = 1 ->
    0 < X xyz * X xyz + Y xyz * Y xyz ->
    Altitude (wgs84_XYZToLLA xyz) = 0
    /\ wgs84_LLAToXYZ (wgs84_XYZToLLA xyz) = xyz.
Proof.
  intros [x y z]. cbn [X Y Z]. unfold wgs84ASq, wgs84BSq, Meters, float64 in *.
  intros Hell Haxis.
  pose proof wgs84A_pos as HA. pose proof wgs84B_pos as HB.
  pose proof wgs84ESq_compl as HE'. pose proof wgs84ESq_bounds as HE.
  set (rho := sqrt (x * x + y * y)).
  assert (Hrho : 0 < rho) by now apply sqrt_lt_R0.
  assert (Hrho2 : rho * rho = x * x + y * y) by (apply sqrt_def; lra).
  destruct (Atan2_polar_decomposition y x Haxis) as [Hx Hy]. fold rho in Hx, Hy.
  set (lon := math.Atan2 y x) in *.
  set (c := rho / wgs84A). set (s := z / wgs84B).
  assert (Hc : 0 < c) by now apply Rdiv_lt_0_compat.
  assert (Hcs : c * c + s * s = 1).
  { subst c s.
    transitivity (x * x / (wgs84A * wgs84A) + y * y / (wgs84A * wgs84A)
                  + z * z / (wgs84B * wgs84B)); [|exact Hell].
    replace (rho / wgs84A * (rho / wgs84A)) with (rho * rho / (wgs84A * wgs84A))
      by (field; lra).
    rewrite Hrho2. field. lra. }
  assert (Exyz : mkXYZ x y z
                 = mkXYZ (wgs84A * c * cos lon) (wgs84A * c * sin lon) (wgs84B * s)).
  { subst c s. f_equal.
    - rewrite <- Hx at 1. field. lra.
    - rewrite <- Hy at 1. field. lra.
    - field. lra. }
  rewrite Exyz.
  rewrite (wgs84_XYZToLLA_ellipsoid c s lon Hc Hcs (Atan2_bound y x)).
  cbv zeta.
  (* the geodetic latitude of the point *)
  set (D := sqrt (wgs84B * c * (wgs84B * c) + wgs84A * s * (wgs84A * s))).
  assert (HD : 0 < D).
  { apply sqrt_lt_R0. assert (0 < wgs84B * c) by now apply Rmult_lt_0_compat. nra. }
  assert (HD2 : D * D = wgs84B * c * (wgs84B * c) + wgs84A * s * (wgs84A * s)).
  { apply sqrt_def. nra. }
  assert (Hquot : wgs84A / wgs84B * (s / c)
                  = (wgs84A * s / D) / (wgs84B * c / D)) by (field; lra).
  destruct (cos_sin_atan_quot (wgs84B * c / D) (wgs84A * s / D)) as [Hcos Hsin].
  { apply Rdiv_lt_0_compat; [now apply Rmult_lt_0_compat | exact HD]. }
  { replace (wgs84B * c / D * (wgs84B * c / D) + wgs84A * s / D * (wgs84A * s / D))
      with ((wgs84B * c * (wgs84B * c) + wgs84A * s * (wgs84A * s)) / (D * D))
      by (field; lra).
    rewrite <- HD2. field. lra. }
  rewrite <- Hquot in Hcos, Hsin.
  set (phi := atan (wgs84A / wgs84B * (s / c))) in *.
  assert (HW : sqrt (1 - wgs84ESq * sin phi * sin phi) = wgs84B / D).
  { replace (1 - wgs84ESq * sin phi * sin phi) with (wgs84B / D * (wgs84B / D)).
    - apply sqrt_square. left. now apply Rdiv_lt_0_compat.
    - rewrite Hsin.
      assert (HEA : wgs84ESq * (wgs84A * wgs84A)
                    = wgs84A * wgs84A - wgs84B * wgs84B).
      { replace wgs84ESq with (1 - wgs84B / wgs84A * (wgs84B / wgs84A)) by lra.
        field. lra. }
      apply (Rmult_eq_reg_r (D * D)); [|nra].
      replace (wgs84B / D * (wgs84B / D) * (D * D)) with (wgs84B * wgs84B)
        by (field; lra).
      replace ((1 - wgs84ESq * (wgs84A * s / D) * (wgs84A * s / D)) * (D * D))
        with (D * D - wgs84ESq * (wgs84A * wgs84A) * (s * s)) by (field; lra).
      rewrite HEA, HD2. nsatz. }
  assert (Halt : wgs84A * c / cos phi
                 - wgs84A / sqrt (1 - wgs84ESq * sin phi * sin phi) = 0).
  { rewrite HW, Hcos. field. repeat split; lra. }
  split; [exact Halt|].
  rewrite Halt.
  rewrite (wgs84_LLAToXYZ_ellipsoid
             (mkLLA (Radians_Degrees phi) (Radians_Degrees lon) 0) eq_refl).
  cbn [Latitude Longitude]. cbv zeta.
  change (PI / 180 * Radians_Degrees phi) with (Degrees_Radians (Radians_Degrees phi)).
  change (PI / 180 * Radians_Degrees lon) with (Degrees_Radians (Radians_Degrees lon)).
  rewrite !Degrees_Radians_Degrees, HW, Hcos, Hsin.
  f_equal; field; repeat split; lra.
Qed.

Lemma wgs84_LLAToXYZ_XYZToLLA_on_ellipsoid_witness :
  wgs84_LLAToXYZ (wgs84_XYZToLLA (mkXYZ wgs84A 0 0)) = mkXYZ wgs84A 0 0.
Proof.
  refine (proj2 (wgs84_LLAToXYZ_XYZToLLA_on_ellipsoid (mkXYZ wgs84A 0 0) _ _));
    cbn [X Y Z]; unfold wgs84ASq, wgs84BSq, wgs84A, wgs84B; [field | ]; lra.
Defined.

(** ** Haversine: range and special cases *)


Lemma cos_Degrees_nonneg (d : R) : -90 <= d <= 90 -> 0 <= cos (PI / 180 * d).
Proof.
  intros Hd. pose proof PI_RGT_0 as HPI. apply cos_ge_0; nra.
Qed.

(** For an angle in the right half plane, the haversine arc tangent is its
    absolute value. *)
Lemma Atan2_sqrt_sin2 (t : R) :
  - (PI / 2) <= t <= PI / 2 ->
  math.Atan2 (sqrt (sin t ^ 2)) (sqrt (1 - sin t ^ 2)) = Rabs t.
Proof.
  intros Ht. pose proof PI_RGT_0 as HPI.
  assert (Hc : 0 <= cos t) by (apply cos_ge_0; lra).
  pose proof (sin2_cos2 t) as H1. unfold Rsqr in H1.
  replace (1 - sin t ^ 2) with (cos t * cos t) by nra.
  rewrite (sqrt_square (cos t) Hc).
  replace (sin t ^ 2) with (Rsqr (sin t)) by (unfold Rsqr; ring).
  rewrite sqrt_Rsqr_abs.
  assert (Es : Rabs (sin t) = sin (Rabs t)).
  { destruct (Rle_dec 0 t) as [H0|H0].
    - rewrite (Rabs_right t) by lra. apply Rabs_right, Rle_ge, sin_ge_0; lra.
    - rewrite (Rabs_left t) by lra. rewrite sin_neg.
      apply Rabs_left1. assert (0 <= sin (- t)) by (apply sin_ge_0; lra).
      rewrite sin_neg in H. lra. }
  assert (Ec : cos t = cos (Rabs t)).
  { destruct (Rle_dec 0 t) as [H0|H0].
    - now rewrite (Rabs_right t) by lra.
    - rewrite (Rabs_left t) by lra. now rewrite cos_neg. }
  rewrite Es, Ec.
  rewrite <- (Rmult_1_l (sin (Rabs t))), <- (Rmult_1_l (cos (Rabs t))).
  apply Atan2_polar; [lra|].
  pose proof (Rabs_pos t). assert (Rabs t <= PI / 2) by (apply Rabs_le; lra). lra.
Qed.



(** X19. Along a meridian (equal longitudes, latitudes in [-90, 90]) the
    distance is the radius times the latitude difference in radians:
    6371000 * Pi/180 * |lat1 - lat2|. *)
Theorem HaversineDistance_along_meridian :
  forall A B : LLA,
    Altitude A = 0 -> Altitude B = 0 ->
    -90 <= Latitude A <= 90 -> -90 <= Latitude B <= 90 ->
    Longitude A = Longitude B ->
    HaversineDistance A B
    = (6371000 * (PI / 180 * Rabs (Latitude A - Latitude B)), None).
Proof.
  intros A B HA HB HlatA HlatB Hlon. pose proof PI_RGT_0 as HPI.
  rewrite (HaversineDistance_value A B _ _ HA HB
             (or_introl eq_refl) (or_introl eq_refl)).
  rewrite Hlon. unfold Degrees, float64 in *.
  replace ((PI / 180 * Longitude B - PI / 180 * Longitude B) / 2) with 0 by field.
  rewrite sin_0.
  set (t := (PI / 180 * Latitude A - PI / 180 * Latitude B) / 2).
  replace (sin t ^ 2
           + cos (PI / 180 * Latitude A) * cos (PI / 180 * Latitude B) * 0 ^ 2)
    with (sin t ^ 2) by ring.
  rewrite Atan2_sqrt_sin2 by (subst t; nra).
  f_equal. f_equal.
  replace (Latitude A - Latitude B) with (180 / PI * (2 * t))
    by (subst t; field; lra).
  rewrite !Rabs_mult, (Rabs_right (180 / PI)), (Rabs_right 2).
  - field. lra.
  - lra.
  - apply Rle_ge. left. apply Rdiv_lt_0_compat; lra.
Qed.

Lemma HaversineDistance_along_meridian_witness :
  HaversineDistance (mkLLA 10 20 0) (mkLLA 40 20 0)
  = (6371000 * (PI / 180 * Rabs (10 - 40)), None).
Proof.
  apply (HaversineDistance_along_meridian (mkLLA 10 20 0) (mkLLA 40 20 0));
    cbn [Latitude Longitude Altitude]; lra.
Defined.

(** X20. Along the equator (both latitudes 0, longitudes at most 180
    degrees apart) the distance is 6371000 * Pi/180 * |lon1 - lon2|. *)
Theorem HaversineDistance_along_equator :
  forall A B : LLA,
    Altitude A = 0 -> Altitude B = 0 ->
    Latitude A = 0 -> Latitude B = 0 ->
    Rabs (Longitude A - Longitude B) <= 180 ->
    HaversineDistance A B
    = (6371000 * (PI / 180 * Rabs (Longitude A - Longitude B)), None).
Proof.
  intros A B HA HB HlatA HlatB Hlon. pose proof PI_RGT_0 as HPI.
  rewrite (HaversineDistance_value A B _ _ HA HB
             (or_introl eq_refl) (or_introl eq_refl)).
  rewrite HlatA, HlatB. unfold Degrees, float64 in *.
  replace ((PI / 180 * 0 - PI / 180 * 0) / 2) with 0 by field.
  replace (PI / 180 * 0) with 0 by field.
  rewrite sin_0, cos_0.
  set (t := (PI / 180 * Longitude A - PI / 180 * Longitude B) / 2).
  replace (0 ^ 2 + 1 * 1 * sin t ^ 2) with (sin t ^ 2) by ring.
  assert (Ht : Longitude A - Longitude B = 180 / PI * (2 * t))
    by (subst t; field; lra).
  assert (Hpos : 0 < 180 / PI) by (apply Rdiv_lt_0_compat; lra).
  assert (Habs : Rabs (Longitude A - Longitude B) = 180 / PI * (2 * Rabs t)).
  { rewrite Ht, !Rabs_mult, (Rabs_right (180 / PI)), (Rabs_right 2); lra. }
  rewrite Atan2_sqrt_sin2.
  - rewrite Habs. f_equal. field. lra.
  - rewrite Habs in Hlon.
    assert (Hle : Rabs t <= PI / 2).
    { apply (Rmult_le_reg_l (180 / PI * 2)); [lra|].
      replace (180 / PI * 2 * (PI / 2)) with 180 by (field; lra). lra. }
    pose proof (Rle_abs t). pose proof (Rle_abs (- t)) as H'.
    rewrite Rabs_Ropp in H'. lra.
Qed.

Lemma HaversineDistance_along_equator_witness :
  HaversineDistance (mkLLA 0 (-30) 0) (mkLLA 0 60 0)
  = (6371000 * (PI / 180 * Rabs (-30 - 60)), None).
Proof.
  apply (HaversineDistance_along_equator (mkLLA 0 (-30) 0) (mkLLA 0 60 0));
    cbn [Latitude Longitude Altitude]; try reflexivity.
  rewrite Rabs_left; lra.
Defined.






(** X22. Writing the longitude of either point a full turn further (plus
    360 degrees) does not change the result of [HaversineDistance]. *)
Theorem HaversineDistance_longitude_full_turn :
  forall (A : LLA) (lat lon : Degrees) (alt : Meters),
    HaversineDistance A (mkLLA lat (lon + 360) alt)
    = HaversineDistance A (mkLLA lat lon alt)
    /\ HaversineDistance (mkLLA lat (lon + 360) alt) A
       = HaversineDistance (mkLLA lat lon alt) A.
Proof.
  intros A lat lon alt. pose proof PI_RGT_0 as HPI.
  assert (Hsq : forall x, sin (x + PI) ^ 2 = sin x ^ 2).
  { intros x. rewrite neg_sin. ring. }
  unfold HaversineDistance. cbn [Latitude Longitude Altitude]. unfold_units.
  split.
  - destruct (float64_neq (Altitude A) 0 || float64_neq alt 0)%bool; [reflexivity|].
    replace ((PI / 180 * Longitude A - PI / 180 * (lon + 360)) / 2)
      with (((PI / 180 * Longitude A - PI / 180 * lon) / 2 - 2 * PI) + PI)
      by field.
    rewrite Hsq.
    replace (sin ((PI / 180 * Longitude A - PI / 180 * lon) / 2 - 2 * PI))
      with (sin ((PI / 180 * Longitude A - PI / 180 * lon) / 2)).
    + reflexivity.
    + rewrite sin_minus, sin_2PI, cos_2PI. ring.
  - destruct (float64_neq alt 0 || float64_neq (Altitude A) 0)%bool; [reflexivity|].
    replace ((PI / 180 * (lon + 360) - PI / 180 * Longitude A) / 2)
      with ((PI / 180 * lon - PI / 180 * Longitude A) / 2 + PI)
      by field.
    rewrite Hsq. reflexivity.
Qed.

(** ** wgs84: the derived constants *)

(** X23. The derived constants are those of the WGS84 ellipsoid: the
    inverse flattening lies between 298.257223 and 298.257224, the squared
    eccentricity between 0.00669437999 and 0.00669438, the inverse
    flattening times the flattening is 1, and the ratio of the squared axes
    is 1 - e^2. *)
Theorem wgs84_derived_constants :
  298.257223 < wgs84FInv < 298.257224
  /\ 0.00669437999 < wgs84ESq < 0.00669438000
  /\ wgs84FInv * wgs84F = 1
  /\ wgs84BSq / wgs84ASq = 1 - wgs84ESq.
Proof.
  pose proof wgs84A_pos as HA. pose proof wgs84B_lt_A as HBA.
  assert (EF : wgs84A / (wgs84A - wgs84B) = wgs84FInv).
  { unfold wgs84FInv, wgs84F. replace 1.0 with 1 by lra. field. lra. }
  assert (Emul : wgs84A / (wgs84A - wgs84B) * (wgs84A - wgs84B) = wgs84A).
  { field. lra. }
  split.
  - rewrite <- EF.
    split; apply (Rmult_lt_reg_r (wgs84A - wgs84B)); try lra;
      rewrite Emul; unfold wgs84A, wgs84B; lra.
  - split; [unfold wgs84ESq, wgs84F, wgs84A, wgs84B; lra|].
    split.
    + unfold wgs84FInv, wgs84F. replace 1.0 with 1 by lra. field. lra.
    + unfold wgs84ASq, wgs84BSq, wgs84ESq, wgs84F. field. lra.
Qed.

(** ** LLA -> ENU -> AER *)

(** X24. The Range of [LLAToENU(ref, lla).AER()] is the straight-line
    distance between the Cartesian positions of the two points, so it is the
    same from [ref] to [lla] as from [lla] to [ref]. *)
Theorem wgs84_LLAToENU_AER_Range :
  forall ref lla : LLA,
    let p := LLAToXYZ WGS84 lla in
    let o := LLAToXYZ WGS84 ref in
    Range (ENU_AER (LLAToENU WGS84 ref lla))
    = sqrt ((X p - X o) * (X p - X o) + (Y p - Y o) * (Y p - Y o)
            + (Z p - Z o) * (Z p - Z o))
    /\ Range (ENU_AER (LLAToENU WGS84 ref lla))
       = Range (ENU_AER (LLAToENU WGS84 lla ref)).
Proof.
  intros ref lla p o. subst p o. cbn [WGS84 LLAToXYZ LLAToENU].
  assert (E : forall a b : LLA,
             Range (ENU_AER (wgs84_LLAToENU a b))
             = sqrt ((X (wgs84_LLAToXYZ b) - X (wgs84_LLAToXYZ a))
                     * (X (wgs84_LLAToXYZ b) - X (wgs84_LLAToXYZ a))
                     + (Y (wgs84_LLAToXYZ b) - Y (wgs84_LLAToXYZ a))
                       * (Y (wgs84_LLAToXYZ b) - Y (wgs84_LLAToXYZ a))
                     + (Z (wgs84_LLAToXYZ b) - Z (wgs84_LLAToXYZ a))
                       * (Z (wgs84_LLAToXYZ b) - Z (wgs84_LLAToXYZ a)))).
  { intros a b. rewrite ENU_AER_Range. f_equal.
    unfold wgs84_LLAToENU, wgs84_XYZToENU. cbn [East North Up]. unfold_units.
    set (lat := PI / 180 * Latitude a). set (lon := PI / 180 * Longitude a).
    pose proof (sin2_cos2 lat) as Hlat. pose proof (sin2_cos2 lon) as Hlon.
    unfold Rsqr in Hlat, Hlon.
    generalize dependent (X (wgs84_LLAToXYZ b) - X (wgs84_LLAToXYZ a)).
    generalize dependent (Y (wgs84_LLAToXYZ b) - Y (wgs84_LLAToXYZ a)).
    generalize dependent (Z (wgs84_LLAToXYZ b) - Z (wgs84_LLAToXYZ a)).
    generalize dependent (sin lat). generalize dependent (cos lat).
    generalize dependent (sin lon). generalize dependent (cos lon).
    intros cp sp Hlon c s Hlat dz dy dx.
    nsatz. }
  split; [apply E|].
  rewrite (E ref lla), (E lla ref). f_equal. ring.
Qed.

(** ** ENU.AER: directions *)





